(** * gradio: the Markdown component and the build context

    A shallow embedding of [gradio/components/markdown.py] and
    [gradio/context.py].  Python objects are values of [pyval]; a Python
    [dict] with string keys is a [gmap string pyval]; a Python [str] is a
    [string] whose characters are code points below 256. *)

From Stdlib Require Import ZArith Ascii String List Lia.
From stdpp Require Import base option strings gmap.

(** ** Python values *)

(** Modelled from the spec: the enumeration [_Keywords] is declared in
    [gradio.components.base], which is outside the excerpt; [markdown.py]
    uses its member [NO_VALUE] only, the marker that the spec calls the
    sentinel of a field that was not supplied. *)
Inductive _Keywords : Set :=
| NO_VALUE.

#[local] Set Warnings "-register-all".

Inductive pyval : Type :=
| PyNone
| PyBool (b : bool)
| PyInt (n : Z)
| PyStr (s : string)
| PyList (l : list pyval)
| PyDict (d : gmap string pyval)
| PyKeyword (k : _Keywords).

(** Python's truth value of an object, as tested by [x if c else y]. *)
Definition truthy (v : pyval) : bool :=
  match v with
  | PyNone => false
  | PyBool b => b
  | PyInt n => negb (n =? 0)%Z
  | PyStr s => negb (String.eqb s "")
  | PyList l => match l with [] => false | _ => true end
  | PyDict d => negb (bool_decide (d = ∅))
  | PyKeyword _ => true
  end.

(** The argument that the annotation [str | None] accepts: [None] is
    Python's [None], [Some s] the string [s]. *)
Definition str_or_none (y : option string) : pyval :=
  match y with
  | None => PyNone
  | Some s => PyStr s
  end.

(** Exceptions the modelled code can raise. *)
Inductive pyexn : Set :=
| AttributeError.

Inductive result (A : Type) : Type :=
| Ok (a : A)
| Raise (e : pyexn).
Arguments Ok {A} a.
Arguments Raise {A} e.

(** ** Python's [str] methods used by [inspect.cleandoc] *)

Definition tab : ascii := "009"%char.
Definition newline : ascii := "010"%char.
Definition carriage_return : ascii := "013"%char.
Definition space : ascii := " "%char.

(** [str.isspace] on one character: the code points below 256 that Python
    counts as whitespace. *)
Definition isspace (c : ascii) : bool :=
  let n := nat_of_ascii c in
  ((9 <=? n) && (n <=? 13)) || ((28 <=? n) && (n <=? 32))
  || (n =? 133) || (n =? 160).

(** [s.lstrip()] *)
Fixpoint lstrip (s : string) : string :=
  match s with
  | String c s' => if isspace c then lstrip s' else s
  | EmptyString => EmptyString
  end.

(** [" " * n] *)
Fixpoint spaces (n : nat) : string :=
  match n with
  | O => EmptyString
  | S n' => String space (spaces n')
  end.

Definition tabsize : nat := 8.

(** [s.expandtabs()], unrolled from column [col]: a tab becomes the spaces
    that reach the next multiple of [tabsize]; a line feed or a carriage
    return resets the column. *)
Fixpoint expandtabs_from (col : nat) (s : string) : string :=
  match s with
  | EmptyString => EmptyString
  | String c s' =>
      if Ascii.eqb c tab then
        let incr := tabsize - col mod tabsize in
        spaces incr +:+ expandtabs_from (col + incr) s'
      else if Ascii.eqb c newline || Ascii.eqb c carriage_return then
        String c (expandtabs_from 0 s')
      else
        String c (expandtabs_from (S col) s')
  end.

Definition expandtabs (s : string) : string := expandtabs_from 0 s.

(** [s.split('\n')]: never the empty list. *)
Fixpoint split_nl (s : string) : list string :=
  match s with
  | EmptyString => [EmptyString]
  | String c s' =>
      if Ascii.eqb c newline then EmptyString :: split_nl s'
      else match split_nl s' with
           | l :: ls => String c l :: ls
           | [] => [String c EmptyString]
           end
  end.

(** ['\n'.join(lines)] *)
Fixpoint join_nl (lines : list string) : string :=
  match lines with
  | [] => EmptyString
  | l :: ls =>
      match ls with
      | [] => l
      | _ :: _ => l +:+ String newline (join_nl ls)
      end
  end.

(** [line[n:]] *)
Fixpoint slice_from (n : nat) (line : string) : string :=
  match n, line with
  | O, _ => line
  | S _, EmptyString => EmptyString
  | S n', String _ line' => slice_from n' line'
  end.

(** ** [inspect.cleandoc] of the Python standard library *)

(** One turn of the loop that looks for the smallest indentation of the
    non-blank lines after the first.  [None] stands for the starting value
    [sys.maxsize], which no indentation reaches. *)
Definition margin_step (margin : option nat) (line : string) : option nat :=
  let content := String.length (lstrip line) in
  match content with
  | O => margin
  | S _ =>
      let indent := String.length line - content in
      Some (match margin with
            | None => indent
            | Some m => Nat.min m indent
            end)
  end.

Definition find_margin (rest : list string) : option nat :=
  fold_left margin_step rest None.

(** [while lines and not lines[0]: lines.pop(0)] *)
Fixpoint pop_leading_blank (lines : list string) : list string :=
  match lines with
  | EmptyString :: ls => pop_leading_blank ls
  | _ => lines
  end.

(** [while lines and not lines[-1]: lines.pop()] *)
Definition pop_trailing_blank (lines : list string) : list string :=
  rev (pop_leading_blank (rev lines)).

Definition cleandoc (doc : string) : string :=
  let lines := split_nl (expandtabs doc) in
  let margin := find_margin (tail lines) in
  let lines :=
    match lines with
    | [] => []
    | first :: rest => lstrip first :: rest
    end in
  let lines :=
    match margin, lines with
    | Some m, first :: rest => first :: map (slice_from m) rest
    | _, _ => lines
    end in
  let lines := pop_trailing_blank lines in
  let lines := pop_leading_blank lines in
  join_nl lines.

(** ** The base component *)

Module Component.

(** Modelled from the spec: the class [Component] of
    [gradio.components.base] is outside the excerpt.  The spec gives it the
    attributes it stores (the value, the visibility flag, the DOM
    identifier, the CSS classes) and the keys it contributes to a
    serialized configuration. *)
Record t : Type := mk {
  visible : pyval;
  elem_id : pyval;
  elem_classes : pyval;
  value : pyval
}.

(** Modelled from the spec: the constructor [Component.__init__] is outside
    the excerpt; the spec has a literal value stored as it is given, and
    names no attribute for further keyword arguments.  What the base class
    does to the value before it stores it cannot be read off the excerpt,
    and no property below rests on the stored value. *)
Definition __init__ (visible elem_id elem_classes value : pyval)
    (kwargs : gmap string pyval) : t :=
  {| visible := visible; elem_id := elem_id;
     elem_classes := elem_classes; value := value |}.

(** Modelled from the spec: [Component.get_config] is outside the excerpt;
    the spec has it contribute the generic base keys [visible], [elem_id]
    and [elem_classes]. *)
Definition get_config (self : t) : gmap string pyval :=
  {[ "visible" := visible self;
     "elem_id" := elem_id self;
     "elem_classes" := elem_classes self ]}.

End Component.

(** ** [gradio/components/markdown.py] *)

Module Markdown.

Record t : Type := mk {
  rtl : pyval;
  latex_delimiters : pyval;
  super : Component.t
}.

(** An argument of a call is [Some v] when the caller supplies it and [None]
    when the caller leaves it out, in which case the default of the
    signature is bound. *)
Definition __init__
    (value rtl latex_delimiters visible elem_id elem_classes : option pyval)
    (kwargs : gmap string pyval) : t :=
  let value := default (PyStr "") value in
  let rtl := default (PyBool false) rtl in
  let latex_delimiters := default PyNone latex_delimiters in
  let visible := default (PyBool true) visible in
  let elem_id := default PyNone elem_id in
  let elem_classes := default PyNone elem_classes in
  {| rtl := rtl;
     latex_delimiters := latex_delimiters;
     super := Component.__init__ visible elem_id elem_classes value kwargs |}.

(** [inspect.cleandoc(y)] starts with [y.expandtabs()], which only a [str]
    has. *)
Definition postprocess (self : t) (y : pyval) : result pyval :=
  match y with
  | PyNone => Ok PyNone
  | PyStr s => Ok (PyStr (cleandoc s))
  | _ => Raise AttributeError
  end.

(** The keys of the base configuration come last in the dict display, so
    they win over the three keys written before them. *)
Definition get_config (self : t) : gmap string pyval :=
  Component.get_config (super self)
  ∪ {[ "value" := Component.value (super self);
       "rtl" := rtl self;
       "latex_delimiters" := latex_delimiters self ]}.

Definition update (value visible rtl latex_delimiters : option pyval)
    : gmap string pyval :=
  let value := default (PyKeyword NO_VALUE) value in
  let visible := default PyNone visible in
  let rtl := default PyNone rtl in
  let latex_delimiters := default PyNone latex_delimiters in
  {[ "visible" := visible;
     "value" := value;
     "rtl" := rtl;
     "latex_delimiters" := latex_delimiters;
     "__type__" := PyStr "update" ]}.

Definition as_example (self : t) (input_data : pyval) : result pyval :=
  match postprocess self input_data with
  | Ok postprocessed =>
      Ok (if truthy postprocessed then postprocessed else PyStr "")
  | Raise e => Raise e
  end.

Definition preprocess (self : t) (x : pyval) : pyval := x.

Definition example_inputs (self : t) : pyval := PyStr "# Hello!".

Definition api_info (self : t) : gmap string pyval :=
  {[ "type" := PyStr "string" ]}.

End Markdown.

(** ** [gradio/context.py] *)

Module Context.

Record t : Type := mk {
  root_block : pyval;
  block : pyval;
  id : Z
}.

(** The class attributes as the class statement binds them. *)
Definition initial : t :=
  {| root_block := PyNone; block := PyNone; id := 0 |}.

End Context.

(** ** Values and shapes of strings named in the statements *)

(** The delimiter rule [{"left": "$", "right": "$", "display": False}]. *)
Definition dollar_rule : pyval :=
  PyDict {[ "left" := PyStr "$"; "right" := PyStr "$";
            "display" := PyBool false ]}.

Fixpoint string_forallb (p : ascii → bool) (s : string) : bool :=
  match s with
  | EmptyString => true
  | String c s' => p c && string_forallb p s'
  end.

(** No character of [s] is a tab. *)
Definition tab_free (s : string) : bool :=
  string_forallb (λ c, negb (Ascii.eqb c tab)) s.

(** No character of [s] is a line feed: [s] is one line. *)
Definition nl_free (s : string) : bool :=
  string_forallb (λ c, negb (Ascii.eqb c newline)) s.

Definition plain_line (s : string) : bool := tab_free s && nl_free s.

(** Every character of [s] is whitespace. *)
Definition all_space (s : string) : bool := string_forallb isspace s.

(** [s] begins with a character that is not whitespace. *)
Definition starts_nonspace (s : string) : bool :=
  match s with
  | EmptyString => false
  | String c _ => negb (isspace c)
  end.

(** No character of [s] is a tab, a line feed or a carriage return: [s] is
    a field of a line, in which every character takes one column. *)
Definition plain_field (s : string) : bool :=
  string_forallb
    (λ c, negb (Ascii.eqb c tab) && negb (Ascii.eqb c newline)
          && negb (Ascii.eqb c carriage_return)) s.

(** The line made of [fields], each followed by a tab, and of [last]. *)
Fixpoint tab_fields (fields : list string) (last : string) : string :=
  match fields with
  | [] => last
  | f :: fs => f +:+ String tab (tab_fields fs last)
  end.

(** The same line with every field followed by the spaces that reach the
    next column that is a multiple of eight. *)
Fixpoint padded_fields (fields : list string) (last : string) : string :=
  match fields with
  | [] => last
  | f :: fs =>
      f +:+ spaces (8 - String.length f mod 8) +:+ padded_fields fs last
  end.

(** The first line of [s]: what stands before its first line feed. *)
Definition first_line (s : string) : string := hd "" (split_nl s).

(** * Properties *)

(** ** The update payload *)

Ltac payload_lookup :=
  intros; unfold Markdown.update; cbn [default];
  repeat first [ rewrite lookup_insert_eq; reflexivity
               | rewrite lookup_singleton_eq; reflexivity
               | rewrite lookup_insert_ne by discriminate ].

Section update_payload.

Variables (value visible rtl latex_delimiters : option pyval).

Lemma update_lookup_visible :
  Markdown.update value visible rtl latex_delimiters !! "visible"
  = Some (default PyNone visible).
Proof. payload_lookup. Qed.

Lemma update_lookup_value :
  Markdown.update value visible rtl latex_delimiters !! "value"
  = Some (default (PyKeyword NO_VALUE) value).
Proof. payload_lookup. Qed.

Lemma update_lookup_rtl :
  Markdown.update value visible rtl latex_delimiters !! "rtl"
  = Some (default PyNone rtl).
Proof. payload_lookup. Qed.

Lemma update_lookup_latex_delimiters :
  Markdown.update value visible rtl latex_delimiters !! "latex_delimiters"
  = Some (default PyNone latex_delimiters).
Proof. payload_lookup. Qed.

Lemma update_lookup_type :
  Markdown.update value visible rtl latex_delimiters !! "__type__"
  = Some (PyStr "update").
Proof. payload_lookup. Qed.

End update_payload.

(** C1. A field that a call of [Markdown.update] leaves out carries its
    marker for "unchanged" in the payload: [_Keywords.NO_VALUE] under
    ["value"], [None] under ["visible"], ["rtl"] and ["latex_delimiters"];
    a field that is supplied carries the supplied object.  In particular
    [update(value="x", rtl=True)] has [None] under ["latex_delimiters"] and
    ["visible"], ["x"] under ["value"], [True] under ["rtl"] and ["update"]
    under ["__type__"]. *)
Theorem update_unsupplied_fields_unchanged :
  (∀ visible rtl latex_delimiters,
     Markdown.update None visible rtl latex_delimiters !! "value"
     = Some (PyKeyword NO_VALUE))
  ∧ (∀ value rtl latex_delimiters,
       Markdown.update value None rtl latex_delimiters !! "visible"
       = Some PyNone)
  ∧ (∀ value visible latex_delimiters,
       Markdown.update value visible None latex_delimiters !! "rtl"
       = Some PyNone)
  ∧ (∀ value visible rtl,
       Markdown.update value visible rtl None !! "latex_delimiters"
       = Some PyNone)
  ∧ (∀ v visible rtl latex_delimiters,
       Markdown.update (Some v) visible rtl latex_delimiters !! "value"
       = Some v)
  ∧ (∀ v value rtl latex_delimiters,
       Markdown.update value (Some v) rtl latex_delimiters !! "visible"
       = Some v)
  ∧ (∀ v value visible latex_delimiters,
       Markdown.update value visible (Some v) latex_delimiters !! "rtl"
       = Some v)
  ∧ (∀ v value visible rtl,
       Markdown.update value visible rtl (Some v) !! "latex_delimiters"
       = Some v)
  ∧ (let payload :=
       Markdown.update (Some (PyStr "x")) None (Some (PyBool true)) None in
     payload !! "latex_delimiters" = Some PyNone
     ∧ payload !! "visible" = Some PyNone
     ∧ payload !! "value" = Some (PyStr "x")
     ∧ payload !! "rtl" = Some (PyBool true)
     ∧ payload !! "__type__" = Some (PyStr "update")).
Proof.
  repeat split; intros;
    first [ apply update_lookup_value | apply update_lookup_visible
          | apply update_lookup_rtl | apply update_lookup_latex_delimiters
          | apply update_lookup_type ].
Qed.

(** C10. Whatever is supplied or left out, the payload of [Markdown.update]
    has exactly the keys ["visible"], ["value"], ["rtl"],
    ["latex_delimiters"] and ["__type__"], and ["__type__"] holds the string
    ["update"]. *)
Theorem update_key_set (value visible rtl latex_delimiters : option pyval) :
  dom (Markdown.update value visible rtl latex_delimiters)
  = ({[ "visible"; "value"; "rtl"; "latex_delimiters"; "__type__" ]}
     : gset string)
  ∧ Markdown.update value visible rtl latex_delimiters !! "__type__"
    = Some (PyStr "update").
Proof.
  split; [| apply update_lookup_type].
  unfold Markdown.update. rewrite !dom_insert_L, dom_singleton_L. set_solver.
Qed.

(** ** Construction and the serialized configuration *)

Section configuration.

Variables (value rtl latex_delimiters visible elem_id elem_classes
           : option pyval).
Variable kwargs : gmap string pyval.

Lemma base_config_other_key (base : Component.t) (key : string) :
  key ≠ "visible" → key ≠ "elem_id" → key ≠ "elem_classes" →
  Component.get_config base !! key = None.
Proof.
  intros Hv Hi Hc. unfold Component.get_config.
  rewrite !lookup_insert_ne by congruence.
  apply lookup_singleton_ne. congruence.
Qed.

Lemma get_config_lookup_latex_delimiters :
  Markdown.get_config
    (Markdown.__init__ value rtl latex_delimiters visible elem_id
       elem_classes kwargs) !! "latex_delimiters"
  = Some (default PyNone latex_delimiters).
Proof.
  unfold Markdown.get_config.
  rewrite lookup_union_r by (apply base_config_other_key; discriminate).
  rewrite !lookup_insert_ne by discriminate.
  apply lookup_singleton_eq.
Qed.

End configuration.

(** C2. A component constructed without a list of delimiter rules reports
    [None] under ["latex_delimiters"], not the list that holds the single
    rule [{"left": "$", "right": "$", "display": False}] which the docstring
    of the constructor announces. *)
Theorem get_config_latex_delimiters_not_provided
    (value rtl visible elem_id elem_classes : option pyval)
    (kwargs : gmap string pyval) :
  let self :=
    Markdown.__init__ value rtl None visible elem_id elem_classes kwargs in
  Markdown.get_config self !! "latex_delimiters" = Some PyNone
  ∧ Markdown.get_config self !! "latex_delimiters"
    ≠ Some (PyList [dollar_rule]).
Proof.
  cbv zeta. rewrite get_config_lookup_latex_delimiters.
  split; [reflexivity | discriminate].
Qed.

(** ** The value transforms *)

(** C4. [postprocess(None)] is [None], and on a string [postprocess]
    returns a string; it raises on neither. *)
Theorem postprocess_none_and_total (self : Markdown.t) :
  Markdown.postprocess self PyNone = Ok PyNone
  ∧ (∀ y : option string,
       ∃ v, Markdown.postprocess self (str_or_none y) = Ok v)
  ∧ (∀ s : string,
       ∃ r, Markdown.postprocess self (PyStr s) = Ok (PyStr r)).
Proof.
  split; [reflexivity |]. split.
  - intros [s |]; cbn; eauto.
  - intros s. cbn. eauto.
Qed.

(** C5. On a string or [None], [as_example] returns what [postprocess]
    returns when that is a non-empty string, and the empty string when that
    is [None] or empty; so it never returns [None].  In particular
    [as_example(None)] is [""] and [as_example("  hi")] is ["hi"]. *)
Theorem as_example_postprocess_or_empty (self : Markdown.t) :
  (∀ input_data : option string,
     match Markdown.postprocess self (str_or_none input_data) with
     | Ok (PyStr (String c r)) =>
         Markdown.as_example self (str_or_none input_data)
         = Ok (PyStr (String c r))
     | Ok (PyStr EmptyString) | Ok PyNone =>
         Markdown.as_example self (str_or_none input_data) = Ok (PyStr "")
     | _ => False
     end)
  ∧ (∀ input_data : option string,
       Markdown.as_example self (str_or_none input_data) ≠ Ok PyNone)
  ∧ Markdown.as_example self PyNone = Ok (PyStr "")
  ∧ Markdown.as_example self (PyStr "  hi") = Ok (PyStr "hi").
Proof.
  split; [| split; [| split; reflexivity]].
  - intros [s |]; cbn; [| reflexivity].
    unfold Markdown.as_example; cbn.
    destruct (cleandoc s); reflexivity.
  - intros [s |]; unfold Markdown.as_example; cbn; [| discriminate].
    destruct (cleandoc s); discriminate.
Qed.

(** C8. [preprocess] returns its argument unchanged, whatever it is. *)
Theorem preprocess_identity (self : Markdown.t) (x : pyval) :
  Markdown.preprocess self x = x.
Proof. reflexivity. Qed.

(** C7. [api_info()] is the mapping [{"type": "string"}] for every
    component. *)
Theorem api_info_type_string (self : Markdown.t) :
  Markdown.api_info self = {[ "type" := PyStr "string" ]}
  ∧ Markdown.api_info self !! "type" = Some (PyStr "string")
  ∧ dom (Markdown.api_info self) = ({[ "type" ]} : gset string).
Proof.
  unfold Markdown.api_info. split; [reflexivity |]. split.
  - apply lookup_singleton_eq.
  - apply dom_singleton_L.
Qed.

(** ** The build context *)

(** C9. Before anything is declared the root block and the current block of
    [Context] are [None] and its running id is zero. *)
Theorem context_initial_state :
  Context.root_block Context.initial = PyNone
  ∧ Context.block Context.initial = PyNone
  ∧ Context.id Context.initial = 0%Z.
Proof. repeat split. Qed.

(** ** De-indentation *)

Section string_facts.

Lemma append_cons (c : ascii) (a b : string) :
  String c a +:+ b = String c (a +:+ b).
Proof. reflexivity. Qed.

Lemma append_assoc (a b c : string) : (a +:+ b) +:+ c = a +:+ (b +:+ c).
Proof.
  induction a as [| x a IH]; [reflexivity |].
  rewrite !append_cons. by rewrite IH.
Qed.

Lemma length_append (a b : string) :
  String.length (a +:+ b) = String.length a + String.length b.
Proof.
  induction a as [| x a IH]; [reflexivity |].
  rewrite append_cons. cbn. by rewrite IH.
Qed.

Lemma string_forallb_app p (a b : string) :
  string_forallb p (a +:+ b) = string_forallb p a && string_forallb p b.
Proof.
  induction a as [| c a IH]; [reflexivity |].
  rewrite append_cons. cbn [string_forallb]. rewrite IH. apply andb_assoc.
Qed.

Lemma string_forallb_spaces p (n : nat) :
  p space = true → string_forallb p (spaces n) = true.
Proof. intros Hp. induction n as [| n IH]; cbn; [| rewrite Hp]; done. Qed.

Lemma lstrip_app_space (w s : string) :
  all_space w = true → lstrip (w +:+ s) = lstrip s.
Proof.
  unfold all_space. induction w as [| c w IH]; [reflexivity |].
  rewrite append_cons. cbn [string_forallb lstrip].
  intros [Hc Hw]%andb_true_iff. rewrite Hc. by apply IH.
Qed.

Lemma lstrip_starts_nonspace (s : string) :
  starts_nonspace s = true → lstrip s = s.
Proof.
  destruct s as [| c s]; cbn; [done |].
  intros Hc. apply negb_true_iff in Hc. by rewrite Hc.
Qed.

Lemma lstrip_length (s : string) :
  String.length (lstrip s) ≤ String.length s.
Proof.
  induction s as [| c s IH]; cbn; [lia |].
  destruct (isspace c); cbn; lia.
Qed.

Lemma slice_from_app (w s : string) :
  slice_from (String.length w) (w +:+ s) = s.
Proof.
  induction w as [| c w IH]; [reflexivity |].
  rewrite append_cons. cbn. exact IH.
Qed.

End string_facts.

Section expandtabs_facts.

Lemma expandtabs_from_tab_free (s : string) :
  tab_free s = true → ∀ col, expandtabs_from col s = s.
Proof.
  unfold tab_free.
  induction s as [| c s IH]; cbn; [done |].
  intros [Hc Hs]%andb_true_iff col.
  apply negb_true_iff in Hc. rewrite Hc.
  destruct (_ || _); by rewrite IH.
Qed.

Lemma expandtabs_from_app_tab_free (a b : string) :
  tab_free b = true →
  ∀ col, expandtabs_from col (a +:+ b) = expandtabs_from col a +:+ b.
Proof.
  intros Hb. induction a as [| c a IH]; intros col.
  - by apply expandtabs_from_tab_free.
  - rewrite append_cons. cbn [expandtabs_from].
    destruct (Ascii.eqb c tab).
    + cbv zeta. by rewrite IH, append_assoc.
    + destruct (_ || _); by rewrite IH.
Qed.

Lemma expandtabs_from_app_nl (l s : string) :
  ∀ col, expandtabs_from col (l +:+ String newline s)
         = expandtabs_from col l +:+ String newline (expandtabs_from 0 s).
Proof.
  induction l as [| c l IH]; intros col; [reflexivity |].
  rewrite append_cons. cbn [expandtabs_from].
  destruct (Ascii.eqb c tab).
  - cbv zeta. by rewrite IH, append_assoc.
  - destruct (_ || _); by rewrite IH.
Qed.

Lemma expandtabs_join_nl (lines : list string) :
  expandtabs (join_nl lines) = join_nl (map expandtabs lines).
Proof.
  unfold expandtabs.
  induction lines as [| l [| l' ls] IH]; [reflexivity | reflexivity |].
  change (join_nl (l :: l' :: ls))
    with (l +:+ String newline (join_nl (l' :: ls))).
  rewrite expandtabs_from_app_nl, IH. reflexivity.
Qed.

(** Expanding the tabs of a run of whitespace leaves a run of whitespace,
    and adds no line feed. *)
Lemma expandtabs_from_forallb p (w : string) :
  p space = true → string_forallb p w = true →
  ∀ col, string_forallb p (expandtabs_from col w) = true.
Proof.
  intros Hp. induction w as [| c w IH]; cbn [string_forallb expandtabs_from];
    [done |].
  intros [Hc Hw]%andb_true_iff col.
  destruct (Ascii.eqb c tab).
  - cbv zeta. rewrite string_forallb_app, string_forallb_spaces by done.
    by apply IH.
  - destruct (_ || _); cbn [string_forallb]; rewrite Hc; by apply IH.
Qed.

Lemma map_expandtabs_prefixed (p : string) (lines : list string) :
  Forall (λ r, tab_free r = true) lines →
  map expandtabs (map (String.append p) lines)
  = map (String.append (expandtabs p)) lines.
Proof.
  induction 1 as [| r rs Hr _ IH]; [reflexivity |].
  cbn [map]. rewrite IH. f_equal.
  by apply expandtabs_from_app_tab_free.
Qed.

End expandtabs_facts.

Section split_facts.

Lemma split_nl_line (l : string) :
  nl_free l = true → split_nl l = [l].
Proof.
  unfold nl_free.
  induction l as [| c l IH]; cbn; [done |].
  intros [Hc Hl]%andb_true_iff.
  apply negb_true_iff in Hc. rewrite Hc, IH; done.
Qed.

Lemma split_nl_app (l s : string) :
  nl_free l = true →
  split_nl (l +:+ String newline s) = l :: split_nl s.
Proof.
  unfold nl_free.
  induction l as [| c l IH]; [done |].
  rewrite append_cons. cbn [string_forallb split_nl].
  intros [Hc Hl]%andb_true_iff.
  apply negb_true_iff in Hc. rewrite Hc, IH; done.
Qed.

Lemma split_join_nl (lines : list string) :
  lines ≠ [] → Forall (λ l, nl_free l = true) lines →
  split_nl (join_nl lines) = lines.
Proof.
  induction lines as [| l [| l' ls] IH]; [done | |].
  - intros _ Hl. cbn. apply split_nl_line. by inversion Hl.
  - intros _ Hl. inversion_clear Hl as [| ? ? Hhd Htl].
    change (join_nl (l :: l' :: ls))
      with (l +:+ String newline (join_nl (l' :: ls))).
    rewrite split_nl_app by done. f_equal. by apply IH.
Qed.

End split_facts.

Section margin_facts.

Variable w : string.
Hypothesis w_space : all_space w = true.

Lemma margin_step_prefixed (margin : option nat) (r : string) :
  margin_step margin (w +:+ r)
  = match String.length (lstrip r) with
    | O => margin
    | S _ =>
        let extra := String.length r - String.length (lstrip r) in
        Some (match margin with
              | None => String.length w + extra
              | Some m => Nat.min m (String.length w + extra)
              end)
    end.
Proof.
  unfold margin_step.
  rewrite lstrip_app_space, length_append by done.
  pose proof (lstrip_length r) as Hle.
  destruct (String.length (lstrip r)) as [| n]; [done |].
  cbv zeta. do 2 f_equal.
  destruct margin; f_equal; lia.
Qed.

Lemma find_margin_reached (rest : list string) :
  fold_left margin_step (map (String.append w) rest)
    (Some (String.length w))
  = Some (String.length w).
Proof.
  induction rest as [| r rest IH]; cbn [map fold_left]; [done |].
  rewrite margin_step_prefixed.
  destruct (String.length (lstrip r)); [done |].
  cbv zeta. by rewrite Nat.min_l by lia.
Qed.

Lemma find_margin_exists (rest : list string) :
  Exists (λ r, starts_nonspace r = true) rest →
  ∀ acc, (∀ m, acc = Some m → String.length w ≤ m) →
    fold_left margin_step (map (String.append w) rest) acc
    = Some (String.length w).
Proof.
  induction 1 as [r rest Hr | r rest _ IH]; intros acc Hacc;
    cbn [map fold_left]; rewrite margin_step_prefixed.
  - rewrite (lstrip_starts_nonspace r Hr).
    destruct r as [| c r]; [done |]. cbn [String.length].
    cbv zeta. rewrite Nat.sub_diag, Nat.add_0_r.
    destruct acc as [m |]; [| apply find_margin_reached].
    rewrite Nat.min_r by (by apply Hacc). apply find_margin_reached.
  - apply IH. intros m.
    destruct (String.length (lstrip r)); [by apply Hacc |].
    cbv zeta. destruct acc as [m' |]; intros [= <-]; [| lia].
    specialize (Hacc m' eq_refl). lia.
Qed.

End margin_facts.

Section blank_line_facts.

Lemma pop_leading_blank_nonempty (l : string) (ls : list string) :
  l ≠ "" → pop_leading_blank (l :: ls) = l :: ls.
Proof. destruct l; done. Qed.

Lemma pop_trailing_blank_nonempty (lines : list string) :
  last lines ≠ Some "" → pop_trailing_blank lines = lines.
Proof.
  unfold pop_trailing_blank.
  destruct lines as [| l ls _] using rev_ind; [done |].
  rewrite last_snoc, rev_unit. intros Hl.
  rewrite pop_leading_blank_nonempty by congruence.
  cbn [rev]. by rewrite rev_involutive.
Qed.

End blank_line_facts.

(** C3, as the code has it.  Take one or more lines without tabs, the first
    and the last of them not empty, the first beginning with a character
    that is not whitespace and, when there are further lines, one of those
    beginning with such a character too.  Put the same run [p] of whitespace
    before every line: [postprocess] removes exactly [p] from every line and
    keeps what follows it, so the indentation of the lines relative to each
    other stays. *)
Theorem postprocess_removes_shared_indent
    (self : Markdown.t) (p first : string) (rest : list string) :
  all_space p = true →
  nl_free p = true →
  Forall (λ r, plain_line r = true) (first :: rest) →
  starts_nonspace first = true →
  (rest ≠ [] → Exists (λ r, starts_nonspace r = true) rest) →
  last (first :: rest) ≠ Some "" →
  Markdown.postprocess self
    (PyStr (join_nl (map (String.append p) (first :: rest))))
  = Ok (PyStr (join_nl (first :: rest))).
Proof.
  intros Hp Hpnl Hplain Hfirst Hsome Hlast.
  assert (Htab : Forall (λ r, tab_free r = true) (first :: rest)).
  { eapply Forall_impl; [exact Hplain |].
    by intros r [? _]%andb_true_iff. }
  assert (Hw : all_space (expandtabs p) = true)
    by (by apply expandtabs_from_forallb).
  assert (Hnl : Forall (λ l, nl_free l = true)
                  (map (String.append (expandtabs p)) (first :: rest))).
  { apply Forall_map. eapply Forall_impl; [exact Hplain |].
    intros r [_ Hr]%andb_true_iff. unfold nl_free in *.
    rewrite string_forallb_app, Hr, andb_true_r.
    by apply expandtabs_from_forallb. }
  cbn [Markdown.postprocess]. do 2 f_equal. unfold cleandoc.
  rewrite expandtabs_join_nl, map_expandtabs_prefixed by done.
  rewrite split_join_nl by done.
  cbn [map tail].
  rewrite lstrip_app_space, (lstrip_starts_nonspace _ Hfirst) by done.
  assert (Hne : first ≠ "") by (by destruct first).
  destruct rest as [| r rest].
  - cbn [map find_margin fold_left].
    rewrite pop_trailing_blank_nonempty by done.
    by rewrite pop_leading_blank_nonempty.
  - unfold find_margin.
    rewrite (find_margin_exists _ Hw (r :: rest)) by (by auto).
    rewrite map_map, (map_ext _ id), map_id
      by (intros; apply slice_from_app).
    rewrite pop_trailing_blank_nonempty by done.
    by rewrite pop_leading_blank_nonempty.
Qed.

(** The lines ["a"], ["  b"], ["c"] behind two spaces each: a concrete case
    of the theorem above. *)
Lemma postprocess_removes_shared_indent_witness :
  Markdown.postprocess (Markdown.__init__ None None None None None None ∅)
    (PyStr (join_nl (map (String.append "  ") ["a"; "  b"; "c"])))
  = Ok (PyStr (join_nl ["a"; "  b"; "c"])).
Proof.
  apply (postprocess_removes_shared_indent _ "  " "a" ["  b"; "c"]).
  - reflexivity.
  - reflexivity.
  - repeat constructor.
  - reflexivity.
  - intros _. right. left. reflexivity.
  - discriminate.
Defined.

(** C3, as the spec words it, fails.  Both lines of ["  a\n    b"] begin
    with two spaces and no longer run of whitespace begins both, yet
    [postprocess] returns ["a\nb"] and not ["a\n  b"]: the first line is
    stripped on its own and the indentation removed from the others is
    measured on them alone. *)
Lemma postprocess_common_prefix_counterexample :
  let self := Markdown.__init__ None None None None None None ∅ in
  let p := "  " in
  let lines := ["  a"; "    b"] in
  all_space p = true
  ∧ Forall (λ l, String.prefix p l = true) lines
  ∧ (∀ q, all_space q = true →
          Forall (λ l, String.prefix q l = true) lines →
          String.length q ≤ String.length p)
  ∧ map (slice_from (String.length p)) lines = ["a"; "  b"]
  ∧ Markdown.postprocess self (PyStr (join_nl lines))
    = Ok (PyStr (join_nl ["a"; "b"]))
  ∧ Markdown.postprocess self (PyStr (join_nl lines))
    ≠ Ok (PyStr (join_nl (map (slice_from (String.length p)) lines))).
Proof.
  cbv zeta. split; [reflexivity |]. split; [repeat constructor |].
  split; [| split; [reflexivity | split; [vm_compute; reflexivity |]]].
  - intros q Hq Hpre. apply Forall_cons_1 in Hpre as [Hpre _].
    destruct q as [| c1 [| c2 [| c3 q]]]; cbn [String.length]; try lia.
    exfalso. cbn in Hpre, Hq.
    repeat match type of Hpre with
           | context [ascii_dec ?a ?b] => destruct (ascii_dec a b); subst
           end; discriminate.
  - vm_compute. discriminate.
Qed.

(** What the conditions of the de-indentation theorem keep out: a tab
    inside a line is expanded, empty lines at either end are dropped, and a
    value that is neither a string nor [None] makes [postprocess] raise. *)
Example postprocess_expands_tabs :
  Markdown.postprocess (Markdown.__init__ None None None None None None ∅)
    (PyStr ("a" +:+ String tab "b"))
  = Ok (PyStr "a       b").
Proof. vm_compute. reflexivity. Qed.

Example postprocess_drops_outer_empty_lines :
  Markdown.postprocess (Markdown.__init__ None None None None None None ∅)
    (PyStr (join_nl [""; "  a"; "  b"; ""; ""]))
  = Ok (PyStr (join_nl ["a"; "b"])).
Proof. vm_compute. reflexivity. Qed.

Example postprocess_number_raises :
  Markdown.postprocess (Markdown.__init__ None None None None None None ∅)
    (PyInt 5)
  = Raise AttributeError.
Proof. reflexivity. Qed.

(** * Further properties of the code *)

(** ** [as_example] against [postprocess] *)

(** X1. On every string [as_example] returns what [postprocess] returns; the
    two differ on [None] only, where [as_example] gives the empty string. *)
Theorem as_example_agrees_on_strings (self : Markdown.t) :
  (∀ s : string,
     Markdown.as_example self (PyStr s) = Markdown.postprocess self (PyStr s))
  ∧ Markdown.as_example self PyNone ≠ Markdown.postprocess self PyNone.
Proof.
  split; [| discriminate].
  intros s. unfold Markdown.as_example. cbn.
  by destruct (cleandoc s).
Qed.

(** ** Arguments of [update] and of the constructor *)

(** X3. For [visible], [rtl] and [latex_delimiters] a call of [update] that
    passes [None] gives the payload of a call that leaves the argument out;
    for [value] it does not: [None] is kept as a value of its own. *)
Theorem update_none_is_omitted
    (value visible rtl latex_delimiters : option pyval) :
  Markdown.update value (Some PyNone) rtl latex_delimiters
  = Markdown.update value None rtl latex_delimiters
  ∧ Markdown.update value visible (Some PyNone) latex_delimiters
    = Markdown.update value visible None latex_delimiters
  ∧ Markdown.update value visible rtl (Some PyNone)
    = Markdown.update value visible rtl None
  ∧ Markdown.update (Some PyNone) visible rtl latex_delimiters
    ≠ Markdown.update None visible rtl latex_delimiters.
Proof.
  repeat split; try reflexivity.
  intros Heq.
  apply (f_equal (λ payload : gmap string pyval, payload !! "value")) in Heq.
  rewrite !update_lookup_value in Heq. discriminate.
Qed.

Lemma get_config_lookup_rtl
    (value rtl latex_delimiters visible elem_id elem_classes : option pyval)
    (kwargs : gmap string pyval) :
  Markdown.get_config
    (Markdown.__init__ value rtl latex_delimiters visible elem_id
       elem_classes kwargs) !! "rtl"
  = Some (default (PyBool false) rtl).
Proof.
  unfold Markdown.get_config.
  rewrite lookup_union_r by (apply base_config_other_key; discriminate).
  rewrite lookup_insert_ne by discriminate.
  apply lookup_insert_eq.
Qed.

(** X4. The constructor checks neither [rtl] nor [latex_delimiters]: an
    object of any shape passed for one of them is what [get_config] reports
    under that key, and a left-out [rtl] is reported as [False]. *)
Theorem get_config_reports_constructor_arguments
    (v : pyval)
    (value rtl latex_delimiters visible elem_id elem_classes : option pyval)
    (kwargs : gmap string pyval) :
  Markdown.get_config
    (Markdown.__init__ value (Some v) latex_delimiters visible elem_id
       elem_classes kwargs) !! "rtl" = Some v
  ∧ Markdown.get_config
      (Markdown.__init__ value rtl (Some v) visible elem_id elem_classes
         kwargs) !! "latex_delimiters" = Some v
  ∧ Markdown.get_config
      (Markdown.__init__ value None latex_delimiters visible elem_id
         elem_classes kwargs) !! "rtl" = Some (PyBool false).
Proof.
  split; [apply get_config_lookup_rtl |].
  split; [apply get_config_lookup_latex_delimiters
         | apply get_config_lookup_rtl].
Qed.

(** ** The lines of a de-indented text *)

Section line_facts.

Lemma split_nl_nonempty (s : string) : split_nl s ≠ [].
Proof.
  induction s as [| c s IH]; cbn; [done |].
  destruct (Ascii.eqb c newline); [done |].
  by destruct (split_nl s).
Qed.

Lemma join_split_nl (s : string) : join_nl (split_nl s) = s.
Proof.
  induction s as [| c s IH]; [reflexivity |].
  cbn [split_nl]. destruct (Ascii.eqb c newline) eqn:Hc.
  - apply Ascii.eqb_eq in Hc as ->.
    pose proof (split_nl_nonempty s) as Hne.
    destruct (split_nl s) as [| l ls]; [done |].
    change (join_nl ("" :: l :: ls))
      with ("" +:+ String newline (join_nl (l :: ls))).
    by rewrite IH.
  - pose proof (split_nl_nonempty s) as Hne.
    destruct (split_nl s) as [| l [| l' ls]]; [done | |].
    + cbn in *. by rewrite IH.
    + change (join_nl (String c l :: l' :: ls))
        with (String c (l +:+ String newline (join_nl (l' :: ls)))).
      change (join_nl (l :: l' :: ls))
        with (l +:+ String newline (join_nl (l' :: ls))) in IH.
      by rewrite IH.
Qed.

Lemma split_nl_forallb p (s : string) :
  string_forallb p s = true →
  Forall (λ l, string_forallb p l = true) (split_nl s).
Proof.
  induction s as [| c s IH]; cbn [split_nl string_forallb].
  - by repeat constructor.
  - intros [Hc Hs]%andb_true_iff. specialize (IH Hs).
    destruct (Ascii.eqb c newline); [by constructor |].
    destruct (split_nl s) as [| l ls]; [by repeat constructor; cbn; rewrite Hc |].
    inversion_clear IH as [| ? ? Hl Hls].
    constructor; [| done]. cbn. by rewrite Hc, Hl.
Qed.

Lemma split_nl_nl_free (s : string) :
  Forall (λ l, nl_free l = true) (split_nl s).
Proof.
  unfold nl_free. induction s as [| c s IH]; cbn [split_nl].
  - by repeat constructor.
  - destruct (Ascii.eqb c newline) eqn:Hc; [by constructor |].
    destruct (split_nl s) as [| l ls];
      [repeat constructor; cbn; by rewrite Hc |].
    inversion_clear IH as [| ? ? Hl Hls].
    constructor; [| done]. cbn. by rewrite Hc, Hl.
Qed.

Lemma lstrip_forallb p (s : string) :
  string_forallb p s = true → string_forallb p (lstrip s) = true.
Proof.
  induction s as [| c s IH]; cbn [lstrip]; [done |].
  destruct (isspace c); [| done].
  cbn. by intros [_ Hs]%andb_true_iff; apply IH.
Qed.

Lemma slice_from_forallb p (n : nat) (s : string) :
  string_forallb p s = true → string_forallb p (slice_from n s) = true.
Proof.
  revert s. induction n as [| n IH]; intros [| c s]; cbn; try done.
  by intros [_ Hs]%andb_true_iff; apply IH.
Qed.

Lemma pop_leading_blank_Forall (P : string → Prop) (lines : list string) :
  Forall P lines → Forall P (pop_leading_blank lines).
Proof.
  induction 1 as [| l ls Hl Hls IH]; [done |].
  destruct l; cbn; [done | by constructor].
Qed.

Lemma pop_trailing_blank_Forall (P : string → Prop) (lines : list string) :
  Forall P lines → Forall P (pop_trailing_blank lines).
Proof.
  intros H. unfold pop_trailing_blank.
  apply Forall_rev, pop_leading_blank_Forall, Forall_rev, H.
Qed.

Lemma join_nl_forallb p (lines : list string) :
  p newline = true →
  Forall (λ l, string_forallb p l = true) lines →
  string_forallb p (join_nl lines) = true.
Proof.
  intros Hp. induction lines as [| l [| l' ls] IH]; [done | |].
  - intros Hl. by inversion Hl.
  - intros Hl. inversion_clear Hl as [| ? ? Hhd Htl].
    change (join_nl (l :: l' :: ls))
      with (l +:+ String newline (join_nl (l' :: ls))).
    rewrite string_forallb_app. cbn [string_forallb].
    rewrite Hhd, Hp. by apply IH.
Qed.

(** The lines that [cleandoc] joins. *)
Lemma cleandoc_lines (s : string) :
  ∃ l0 rest,
    split_nl (expandtabs s) = l0 :: rest
    ∧ cleandoc s
      = join_nl (pop_leading_blank (pop_trailing_blank
          (lstrip l0 :: match find_margin rest with
                        | Some m => map (slice_from m) rest
                        | None => rest
                        end))).
Proof.
  unfold cleandoc. pose proof (split_nl_nonempty (expandtabs s)) as Hne.
  destruct (split_nl (expandtabs s)) as [| l0 rest]; [done |].
  exists l0, rest. split; [done |]. cbn [tail].
  by destruct (find_margin rest).
Qed.

Lemma cleandoc_lines_Forall p (l0 : string) (rest : list string) :
  Forall (λ l, string_forallb p l = true) (l0 :: rest) →
  Forall (λ l, string_forallb p l = true)
    (pop_leading_blank (pop_trailing_blank
       (lstrip l0 :: match find_margin rest with
                     | Some m => map (slice_from m) rest
                     | None => rest
                     end))).
Proof.
  intros H. inversion_clear H as [| ? ? Hl0 Hrest].
  apply pop_leading_blank_Forall, pop_trailing_blank_Forall.
  constructor; [by apply lstrip_forallb |].
  destruct (find_margin rest); [| done].
  apply Forall_map. eapply Forall_impl; [exact Hrest |].
  intros r Hr. by apply slice_from_forallb.
Qed.

(** [cleandoc] brings in no character that the text with its tabs expanded
    does not have. *)
Lemma cleandoc_forallb p (s : string) :
  p newline = true →
  string_forallb p (expandtabs s) = true →
  string_forallb p (cleandoc s) = true.
Proof.
  intros Hp Hs. destruct (cleandoc_lines s) as (l0 & rest & Hsplit & ->).
  apply join_nl_forallb; [done |].
  apply cleandoc_lines_Forall. rewrite <- Hsplit.
  by apply split_nl_forallb.
Qed.

Lemma expandtabs_from_no_tab (s : string) :
  ∀ col, tab_free (expandtabs_from col s) = true.
Proof.
  unfold tab_free. induction s as [| c s IH]; intros col;
    cbn [expandtabs_from]; [done |].
  destruct (Ascii.eqb c tab) eqn:Hc.
  - cbv zeta. rewrite string_forallb_app, string_forallb_spaces by done.
    apply IH.
  - destruct (_ || _); cbn [string_forallb]; rewrite Hc; apply IH.
Qed.

End line_facts.

Section tab_facts.

Lemma plain_field_parts (f : string) :
  plain_field f = true → tab_free f = true ∧ nl_free f = true.
Proof.
  unfold plain_field, tab_free, nl_free.
  induction f as [| c f IH]; cbn [string_forallb]; [done |].
  intros [[[Ht Hn]%andb_true_iff _]%andb_true_iff Hf]%andb_true_iff.
  destruct (IH Hf) as [-> ->]. by rewrite Ht, Hn.
Qed.

Lemma mod_8_add (col n : nat) : col mod 8 = 0 → (col + n) mod 8 = n mod 8.
Proof.
  intros Hcol. rewrite Nat.Div0.add_mod, Hcol, Nat.add_0_l.
  apply Nat.Div0.mod_mod.
Qed.

Lemma mod_8_next_stop (n : nat) : (n + (8 - n mod 8)) mod 8 = 0.
Proof.
  pose proof (Nat.div_mod_eq n 8) as Hn.
  pose proof (Nat.mod_upper_bound n 8) as Hlt.
  replace (n + (8 - n mod 8)) with ((n / 8 + 1) * 8) by lia.
  apply Nat.Div0.mod_mul.
Qed.

(** A field and the tab after it, read from column [col]. *)
Lemma expandtabs_from_field (f rest : string) :
  plain_field f = true →
  ∀ col,
    expandtabs_from col (f +:+ String tab rest)
    = f +:+ spaces (8 - (col + String.length f) mod 8)
        +:+ expandtabs_from
              (col + String.length f + (8 - (col + String.length f) mod 8))
              rest.
Proof.
  unfold plain_field.
  induction f as [| c f IH]; cbn [string_forallb]; intros Hf col.
  - change ("" +:+ String tab rest) with (String tab rest).
    cbn [expandtabs_from String.length]. rewrite Nat.add_0_r. reflexivity.
  - apply andb_true_iff in Hf as [Hc Hf].
    apply andb_true_iff in Hc as [Hc Hcr].
    apply andb_true_iff in Hc as [Ht Hn].
    apply negb_true_iff in Ht, Hn, Hcr.
    rewrite !append_cons. cbn [expandtabs_from String.length].
    rewrite Ht, Hn, Hcr. cbn [orb].
    rewrite (IH Hf (S col)).
    by replace (S col + String.length f) with (col + S (String.length f))
      by lia.
Qed.

(** A line of fields read from a column that is a multiple of eight. *)
Lemma expandtabs_from_fields (fields : list string) (last : string) :
  Forall (λ f, plain_field f = true) (fields ++ [last]) →
  ∀ col, col mod 8 = 0 →
    expandtabs_from col (tab_fields fields last) = padded_fields fields last.
Proof.
  induction fields as [| f fs IH]; intros Hall col Hcol.
  - apply Forall_cons_1 in Hall as [Hlast _].
    apply expandtabs_from_tab_free. by apply plain_field_parts.
  - apply Forall_cons_1 in Hall as [Hf Hfs].
    cbn [tab_fields padded_fields].
    rewrite expandtabs_from_field by done.
    rewrite IH by (done || apply mod_8_next_stop).
    by rewrite mod_8_add.
Qed.

Lemma nl_free_tab_fields (fields : list string) (last : string) :
  Forall (λ f, plain_field f = true) (fields ++ [last]) →
  nl_free (tab_fields fields last) = true.
Proof.
  induction fields as [| f fs IH]; intros Hall.
  - apply Forall_cons_1 in Hall as [Hlast _]. by apply plain_field_parts.
  - apply Forall_cons_1 in Hall as [Hf Hfs]. cbn [tab_fields].
    destruct (plain_field_parts f Hf) as [_ Hnl]. specialize (IH Hfs).
    unfold nl_free in *. rewrite string_forallb_app. cbn [string_forallb].
    by rewrite Hnl, IH.
Qed.

Lemma cleandoc_single_line (s : string) :
  nl_free s = true → cleandoc s = lstrip (expandtabs s).
Proof.
  intros Hs. unfold cleandoc.
  rewrite split_nl_line by (by apply expandtabs_from_forallb).
  cbn [tail find_margin fold_left]. unfold pop_trailing_blank.
  by destruct (lstrip (expandtabs s)).
Qed.

End tab_facts.

(** X5. The text that [postprocess] returns holds no tab, and the tabs are
    replaced by spaces, not dropped: in a line of fields without carriage
    return whose first field begins with a character that is not
    whitespace, every field that a tab follows is filled with spaces up to
    the next column that is a multiple of eight. *)
Theorem postprocess_tabs_become_spaces (self : Markdown.t) :
  (∀ s : string,
     ∃ r, Markdown.postprocess self (PyStr s) = Ok (PyStr r)
          ∧ tab_free r = true)
  ∧ (∀ (first : string) (fields : list string) (last : string),
       Forall (λ f, plain_field f = true) (first :: fields ++ [last]) →
       starts_nonspace first = true →
       Markdown.postprocess self (PyStr (tab_fields (first :: fields) last))
       = Ok (PyStr (padded_fields (first :: fields) last))).
Proof.
  split.
  - intros s. exists (cleandoc s). split; [reflexivity |].
    apply cleandoc_forallb; [reflexivity |].
    apply expandtabs_from_no_tab.
  - intros first fields last Hall Hfirst.
    cbn [Markdown.postprocess]. do 2 f_equal.
    rewrite cleandoc_single_line
      by (by apply (nl_free_tab_fields (first :: fields))).
    unfold expandtabs.
    rewrite (expandtabs_from_fields (first :: fields)) by done.
    apply lstrip_starts_nonspace.
    cbn [padded_fields]. by destruct first.
Qed.

(** The line ["a\tbc\td"]: [a] is filled up to column 8 and [bc] up to
    column 16. *)
Lemma postprocess_tabs_become_spaces_witness :
  Markdown.postprocess (Markdown.__init__ None None None None None None ∅)
    (PyStr (tab_fields ["a"; "bc"] "d"))
  = Ok (PyStr "a       bc      d").
Proof.
  apply (proj2 (postprocess_tabs_become_spaces _) "a" ["bc"] "d").
  - repeat constructor.
  - reflexivity.
Defined.

(** X6. On a text of one line (no line feed) [postprocess] expands the tabs
    and strips the leading whitespace, and does nothing else. *)
Theorem postprocess_single_line (self : Markdown.t) (s : string) :
  nl_free s = true →
  Markdown.postprocess self (PyStr s) = Ok (PyStr (lstrip (expandtabs s))).
Proof.
  intros Hs. cbn [Markdown.postprocess]. do 2 f_equal. unfold cleandoc.
  rewrite split_nl_line by (by apply expandtabs_from_forallb).
  cbn [tail find_margin fold_left]. unfold pop_trailing_blank.
  by destruct (lstrip (expandtabs s)).
Qed.

Lemma postprocess_single_line_witness :
  Markdown.postprocess (Markdown.__init__ None None None None None None ∅)
    (PyStr (String tab "# Hello!  "))
  = Ok (PyStr "# Hello!  ").
Proof.
  apply (postprocess_single_line _ (String tab "# Hello!  ")). reflexivity.
Defined.

Section outer_line_facts.

Lemma pop_leading_blank_head (lines : list string) :
  head (pop_leading_blank lines) ≠ Some "".
Proof. induction lines as [| [| c l] ls IH]; done. Qed.

Lemma pop_leading_blank_last (lines : list string) :
  last lines ≠ Some "" → last (pop_leading_blank lines) ≠ Some "".
Proof.
  induction lines as [| [| c l] ls IH]; [done | | done].
  destruct ls as [| l' ls]; [done |]. exact IH.
Qed.

Lemma last_rev_head (lines : list string) : last (rev lines) = head lines.
Proof.
  destruct lines as [| l ls]; [done |]. cbn [rev]. apply last_snoc.
Qed.

Lemma pop_trailing_blank_last (lines : list string) :
  last (pop_trailing_blank lines) ≠ Some "".
Proof.
  unfold pop_trailing_blank. rewrite last_rev_head.
  apply pop_leading_blank_head.
Qed.

End outer_line_facts.

(** X7. The text that [postprocess] returns neither begins nor ends with an
    empty line: it is empty, or its first and its last line are not. *)
Theorem postprocess_no_outer_empty_lines (self : Markdown.t) (s : string) :
  ∃ r, Markdown.postprocess self (PyStr s) = Ok (PyStr r)
       ∧ (r = ""
          ∨ (head (split_nl r) ≠ Some "" ∧ last (split_nl r) ≠ Some "")).
Proof.
  exists (cleandoc s). split; [reflexivity |].
  destruct (cleandoc_lines s) as (l0 & rest & Hsplit & ->).
  pose proof (split_nl_nl_free (expandtabs s)) as Hnl. rewrite Hsplit in Hnl.
  apply cleandoc_lines_Forall in Hnl.
  pose proof (pop_leading_blank_head (pop_trailing_blank
    (lstrip l0 :: match find_margin rest with
                  | Some m => map (slice_from m) rest
                  | None => rest
                  end))) as Hhead.
  pose proof (pop_leading_blank_last _ (pop_trailing_blank_last
    (lstrip l0 :: match find_margin rest with
                  | Some m => map (slice_from m) rest
                  | None => rest
                  end))) as Hlast.
  destruct (pop_leading_blank _) as [| l ls] eqn:Hlines; [by left |].
  right. by rewrite split_join_nl.
Qed.

(** ** Texts whose first line is not blank *)

Section first_line_facts.

Lemma expandtabs_from_forallb_eq p (s : string) :
  p tab = true → p space = true →
  ∀ col, string_forallb p (expandtabs_from col s) = string_forallb p s.
Proof.
  intros Htab Hsp. induction s as [| c s IH]; intros col;
    cbn [expandtabs_from string_forallb]; [done |].
  destruct (Ascii.eqb c tab) eqn:Hc.
  - apply Ascii.eqb_eq in Hc as ->. cbv zeta.
    by rewrite string_forallb_app, string_forallb_spaces, IH, Htab.
  - destruct (_ || _); cbn [string_forallb]; by rewrite IH.
Qed.

Lemma split_nl_expandtabs (s : string) :
  split_nl (expandtabs s) = map expandtabs (split_nl s).
Proof.
  rewrite <- (join_split_nl s) at 1. rewrite expandtabs_join_nl.
  apply split_join_nl.
  - pose proof (split_nl_nonempty s). by destruct (split_nl s).
  - apply Forall_map. eapply Forall_impl; [apply split_nl_nl_free |].
    intros l Hl. by apply expandtabs_from_forallb.
Qed.

Lemma lstrip_blank_iff (x : string) : lstrip x = "" ↔ all_space x = true.
Proof.
  unfold all_space. induction x as [| c x IH]; cbn; [done |].
  destruct (isspace c); cbn; [exact IH | done].
Qed.

Lemma lstrip_starts (x : string) :
  lstrip x ≠ "" → starts_nonspace (lstrip x) = true.
Proof.
  induction x as [| c x IH]; cbn [lstrip]; [done |].
  destruct (isspace c) eqn:Hc; [exact IH |].
  intros _. cbn. by rewrite Hc.
Qed.

Lemma lstrip_idem (x : string) : lstrip (lstrip x) = lstrip x.
Proof.
  destruct (decide (lstrip x = "")) as [-> | Hx]; [done |].
  by apply lstrip_starts_nonspace, lstrip_starts.
Qed.

Lemma first_line_nonblank (s l0 : string) (rest : list string) :
  all_space (first_line s) = false →
  split_nl (expandtabs s) = l0 :: rest →
  lstrip l0 ≠ "".
Proof.
  unfold first_line. rewrite split_nl_expandtabs.
  destruct (split_nl s) as [| a lines]; [done |].
  cbn [hd map]. intros Ha [= <- _]. rewrite lstrip_blank_iff.
  unfold all_space, expandtabs in *.
  rewrite expandtabs_from_forallb_eq by done. congruence.
Qed.

Lemma pop_leading_blank_snoc (ys : list string) (x : string) :
  x ≠ "" → pop_leading_blank (ys ++ [x]) = pop_leading_blank ys ++ [x].
Proof.
  intros Hx. induction ys as [| [| c y] ys IH]; cbn; [by destruct x | done..].
Qed.

Lemma pop_trailing_blank_cons (x : string) (xs : list string) :
  x ≠ "" → pop_trailing_blank (x :: xs) = x :: pop_trailing_blank xs.
Proof.
  intros Hx. unfold pop_trailing_blank. cbn [rev].
  rewrite pop_leading_blank_snoc by done. by rewrite rev_unit.
Qed.

(** With a first line that is not blank, nothing is popped in front and the
    first line of the result is the stripped first line. *)
Lemma cleandoc_first_nonblank (s : string) :
  all_space (first_line s) = false →
  ∃ l0 rest,
    split_nl (expandtabs s) = l0 :: rest
    ∧ lstrip l0 ≠ ""
    ∧ cleandoc s
      = join_nl (lstrip l0 :: pop_trailing_blank
                   match find_margin rest with
                   | Some m => map (slice_from m) rest
                   | None => rest
                   end).
Proof.
  intros Hfirst. destruct (cleandoc_lines s) as (l0 & rest & Hsplit & ->).
  exists l0, rest. pose proof (first_line_nonblank _ _ _ Hfirst Hsplit) as Hl0.
  split; [done |]. split; [done |].
  rewrite pop_trailing_blank_cons by done.
  by rewrite pop_leading_blank_nonempty.
Qed.

Lemma starts_nonspace_join_nl (h : string) (lines : list string) :
  h ≠ "" → starts_nonspace (join_nl (h :: lines)) = starts_nonspace h.
Proof. destruct h, lines; done. Qed.

End first_line_facts.

(** X8. When the first line of the text is not blank, what [postprocess]
    returns begins with a character that is not whitespace. *)
Theorem postprocess_starts_nonspace (self : Markdown.t) (s : string) :
  all_space (first_line s) = false →
  ∃ r, Markdown.postprocess self (PyStr s) = Ok (PyStr r)
       ∧ starts_nonspace r = true.
Proof.
  intros Hfirst. exists (cleandoc s). split; [reflexivity |].
  destruct (cleandoc_first_nonblank s Hfirst) as (l0 & rest & _ & Hl0 & ->).
  rewrite starts_nonspace_join_nl by done. by apply lstrip_starts.
Qed.

Lemma postprocess_starts_nonspace_witness :
  ∃ r, Markdown.postprocess
         (Markdown.__init__ None None None None None None ∅)
         (PyStr (join_nl ["    # Title"; ""; "      text"]))
       = Ok (PyStr r)
       ∧ starts_nonspace r = true.
Proof.
  apply (postprocess_starts_nonspace _
           (join_nl ["    # Title"; ""; "      text"])).
  reflexivity.
Defined.

(** ** Applying [postprocess] twice *)

Section idempotence_facts.

Lemma pop_leading_blank_split (lines : list string) :
  ∃ empties, Forall (λ l, l = "") empties
             ∧ lines = empties ++ pop_leading_blank lines.
Proof.
  induction lines as [| [| c l] ls (empties & He & IH)].
  - by exists [].
  - exists ("" :: empties). split; [by constructor |].
    cbn. by rewrite <- IH.
  - by exists [].
Qed.

Lemma pop_trailing_blank_split (lines : list string) :
  ∃ empties, Forall (λ l, l = "") empties
             ∧ lines = pop_trailing_blank lines ++ empties.
Proof.
  destruct (pop_leading_blank_split (rev lines)) as (empties & He & Hrev).
  exists (rev empties). split; [by apply Forall_rev |].
  unfold pop_trailing_blank. rewrite <- rev_app_distr, <- Hrev.
  by rewrite rev_involutive.
Qed.

Lemma margin_fold_empties (empties : list string) (acc : option nat) :
  Forall (λ l, l = "") empties → fold_left margin_step empties acc = acc.
Proof. induction 1 as [| l ls -> _ IH]; [done |]. exact IH. Qed.

Lemma find_margin_pop_trailing (lines : list string) :
  find_margin (pop_trailing_blank lines) = find_margin lines.
Proof.
  destruct (pop_trailing_blank_split lines) as (empties & He & Hsplit).
  unfold find_margin. rewrite Hsplit at 2.
  rewrite fold_left_app. symmetry. by apply margin_fold_empties.
Qed.

(** Cutting a line at its indentation leaves the stripped line. *)
Lemma slice_from_indent (r : string) :
  slice_from (String.length r - String.length (lstrip r)) r = lstrip r.
Proof.
  induction r as [| c r IH]; [done |]. cbn [lstrip].
  destruct (isspace c).
  - pose proof (lstrip_length r).
    replace (String.length (String c r) - String.length (lstrip r))
      with (S (String.length r - String.length (lstrip r)))
      by (cbn [String.length]; lia).
    exact IH.
  - by rewrite Nat.sub_diag.
Qed.

(** The margin that the loop finds is the indentation of one of the lines
    that are not blank. *)
Lemma find_margin_attained (lines : list string) :
  ∀ acc k,
    fold_left margin_step lines acc = Some k →
    acc = Some k
    ∨ Exists (λ r, lstrip r ≠ ""
                   ∧ String.length r - String.length (lstrip r) = k) lines.
Proof.
  induction lines as [| r lines IH]; intros acc k; cbn [fold_left];
    [by left |].
  intros [Hstep | Hex]%IH; [| by right; right].
  unfold margin_step in Hstep.
  destruct (String.length (lstrip r)) as [| n] eqn:Hlen; [by left |].
  assert (lstrip r ≠ "") as Hr by (intros Heq; by rewrite Heq in Hlen).
  destruct acc as [m |]; injection Hstep as Hk.
  - destruct (decide (m = k)) as [-> | Hne]; [by left |].
    right; left. split; [done |]. lia.
  - right; left. split; [done | lia].
Qed.

Lemma find_margin_zero (lines : list string) :
  Exists (λ r, starts_nonspace r = true) lines →
  find_margin lines = Some 0.
Proof.
  intros Hex. unfold find_margin.
  rewrite <- (map_id lines) at 1. rewrite (map_ext id (String.append "")) by done.
  apply (find_margin_exists "" eq_refl lines Hex). intros m _. cbn. lia.
Qed.

(** Once the margin is cut off, the margin of what is left is zero. *)
Lemma find_margin_dedented (rest : list string) (k : nat) :
  find_margin rest = Some k →
  find_margin (map (slice_from k) rest) = Some 0.
Proof.
  intros [[=] | Hex]%find_margin_attained.
  apply find_margin_zero, Exists_map.
  eapply Exists_impl; [exact Hex |].
  intros r [Hr <-]. cbn beta. rewrite slice_from_indent.
  by apply lstrip_starts.
Qed.

Lemma map_slice_from_zero (lines : list string) :
  map (slice_from 0) lines = lines.
Proof. rewrite <- (map_id lines) at 2. by apply map_ext; intros []. Qed.

(** The lines that [cleandoc] leaves are lines that it leaves alone. *)
Lemma cleandoc_fixed_lines (h : string) (lines : list string) :
  starts_nonspace h = true →
  tab_free (join_nl (h :: pop_trailing_blank lines)) = true →
  Forall (λ l, nl_free l = true) (h :: pop_trailing_blank lines) →
  (find_margin lines = None ∨ find_margin lines = Some 0) →
  cleandoc (join_nl (h :: pop_trailing_blank lines))
  = join_nl (h :: pop_trailing_blank lines).
Proof.
  intros Hh Htab Hnl Hmargin.
  assert (Hne : h ≠ "") by (by destruct h).
  unfold cleandoc, expandtabs.
  rewrite expandtabs_from_tab_free, split_join_nl by done.
  cbn [tail]. rewrite find_margin_pop_trailing, lstrip_starts_nonspace by done.
  assert (Hsame :
    match find_margin lines with
    | Some m => h :: map (slice_from m) (pop_trailing_blank lines)
    | None => h :: pop_trailing_blank lines
    end = h :: pop_trailing_blank lines).
  { destruct Hmargin as [-> | ->]; [done |]. by rewrite map_slice_from_zero. }
  rewrite Hsame, pop_trailing_blank_cons by done.
  rewrite (pop_trailing_blank_nonempty (pop_trailing_blank lines))
    by apply pop_trailing_blank_last.
  by rewrite pop_leading_blank_nonempty.
Qed.

End idempotence_facts.

(** X9. When the first line of the text is not blank, [postprocess] leaves
    its own result unchanged: de-indenting twice is de-indenting once. *)
Theorem postprocess_idempotent (self : Markdown.t) (s : string) :
  all_space (first_line s) = false →
  ∃ r, Markdown.postprocess self (PyStr s) = Ok (PyStr r)
       ∧ Markdown.postprocess self (PyStr r) = Ok (PyStr r).
Proof.
  intros Hfirst. exists (cleandoc s). split; [reflexivity |].
  cbn [Markdown.postprocess]. do 2 f_equal.
  assert (Htab : tab_free (cleandoc s) = true)
    by (apply cleandoc_forallb; [done | apply expandtabs_from_no_tab]).
  assert (Hnl : ∀ l0 rest, split_nl (expandtabs s) = l0 :: rest →
            Forall (λ l, nl_free l = true)
              (pop_leading_blank (pop_trailing_blank
                 (lstrip l0 :: match find_margin rest with
                               | Some m => map (slice_from m) rest
                               | None => rest
                               end)))).
  { intros l0 rest Hsplit. apply cleandoc_lines_Forall.
    rewrite <- Hsplit. apply split_nl_nl_free. }
  destruct (cleandoc_first_nonblank s Hfirst) as (l0 & rest & Hsplit & Hl0 & Hc).
  specialize (Hnl l0 rest Hsplit).
  rewrite pop_trailing_blank_cons, pop_leading_blank_nonempty in Hnl by done.
  rewrite Hc in Htab |- *.
  apply cleandoc_fixed_lines; [by apply lstrip_starts | done | done |].
  destruct (find_margin rest) as [k |] eqn:Hk; [right | by left].
  by apply find_margin_dedented.
Qed.

Lemma postprocess_idempotent_witness :
  ∃ r, Markdown.postprocess
         (Markdown.__init__ None None None None None None ∅)
         (PyStr (join_nl ["  # Title"; "    text"; "      code"; ""]))
       = Ok (PyStr r)
       ∧ Markdown.postprocess
           (Markdown.__init__ None None None None None None ∅) (PyStr r)
         = Ok (PyStr r).
Proof.
  apply (postprocess_idempotent _
           (join_nl ["  # Title"; "    text"; "      code"; ""])).
  reflexivity.
Defined.

(** A blank first line is what the condition keeps out: there a second
    [postprocess] de-indents once more. *)
Example postprocess_twice_after_blank_first_line :
  let self := Markdown.__init__ None None None None None None ∅ in
  Markdown.postprocess self (PyStr (join_nl [""; "  a"; "    b"]))
  = Ok (PyStr (join_nl ["a"; "  b"]))
  ∧ Markdown.postprocess self (PyStr (join_nl ["a"; "  b"]))
    = Ok (PyStr (join_nl ["a"; "b"])).
Proof. split; vm_compute; reflexivity. Qed.

(** ** What de-indentation keeps *)

Section content_facts.

(** The margin that the loop finds exceeds the indentation of no line that
    is not blank. *)
Lemma find_margin_lower_bound (lines : list string) :
  ∀ acc k,
    fold_left margin_step lines acc = Some k →
    (∀ m, acc = Some m → k ≤ m)
    ∧ Forall (λ r, lstrip r ≠ ""
                   → k ≤ String.length r - String.length (lstrip r)) lines.
Proof.
  induction lines as [| r lines IH]; intros acc k; cbn [fold_left].
  - intros ->. split; [by intros m [= ->] | done].
  - intros [Hacc Hrest]%IH. unfold margin_step in Hacc.
    destruct (String.length (lstrip r)) as [| n] eqn:Hlen.
    + split; [done |]. constructor; [| done].
      intros Hr. destruct (lstrip r); done.
    + split.
      * intros m ->. specialize (Hacc _ eq_refl). lia.
      * constructor; [| done]. intros _.
        destruct acc as [m |]; specialize (Hacc _ eq_refl); lia.
Qed.

Lemma lstrip_slice_from (k : nat) (r : string) :
  k ≤ String.length r - String.length (lstrip r) →
  lstrip (slice_from k r) = lstrip r.
Proof.
  revert r. induction k as [| k IH]; intros r; [done |].
  destruct r as [| c r]; [done |]. cbn [lstrip slice_from].
  pose proof (lstrip_length r).
  destruct (isspace c); cbn [String.length]; intros Hk; [| lia].
  apply IH. lia.
Qed.

Lemma lstrip_slice_from_blank (k : nat) (r : string) :
  lstrip r = "" → lstrip (slice_from k r) = "".
Proof.
  rewrite !lstrip_blank_iff. apply slice_from_forallb.
Qed.

(** Cutting the margin off takes whitespace only. *)
Lemma lstrip_dedented (rest : list string) :
  map lstrip match find_margin rest with
             | Some m => map (slice_from m) rest
             | None => rest
             end
  = map lstrip rest.
Proof.
  destruct (find_margin rest) as [k |] eqn:Hk; [| done].
  apply find_margin_lower_bound in Hk as [_ Hk].
  rewrite map_map. apply map_ext_Forall.
  eapply Forall_impl; [exact Hk |]. intros r Hr. cbn beta.
  destruct (decide (lstrip r = "")) as [Hblank | Hnb].
  - rewrite Hblank. by apply lstrip_slice_from_blank.
  - by apply lstrip_slice_from, Hr.
Qed.

Lemma map_lstrip_empties (empties : list string) :
  Forall (λ l, l = "") empties → Forall (λ l, l = "") (map lstrip empties).
Proof.
  intros H. apply Forall_map.
  by eapply Forall_impl; [exact H |]; intros ? ->.
Qed.

End content_facts.

(** X10. [postprocess] takes away leading whitespace and empty lines at both
    ends, and nothing else: stripped of their leading whitespace, the lines
    of the result are the lines of the text with its tabs expanded, between
    two runs of lines that are empty once stripped. *)
Theorem postprocess_keeps_content (self : Markdown.t) (s : string) :
  ∃ r front back,
    Markdown.postprocess self (PyStr s) = Ok (PyStr r)
    ∧ Forall (λ l, l = "") front
    ∧ Forall (λ l, l = "") back
    ∧ map lstrip (split_nl (expandtabs s))
      = front ++ map lstrip (split_nl r) ++ back.
Proof.
  destruct (cleandoc_lines s) as (l0 & rest & Hsplit & Hc).
  pose proof (split_nl_nl_free (expandtabs s)) as Hnl. rewrite Hsplit in Hnl.
  apply cleandoc_lines_Forall in Hnl.
  assert (Hsame :
    map lstrip (lstrip l0 :: match find_margin rest with
                             | Some m => map (slice_from m) rest
                             | None => rest
                             end)
    = map lstrip (split_nl (expandtabs s))).
  { rewrite Hsplit. cbn [map]. by rewrite lstrip_idem, lstrip_dedented. }
  destruct (pop_trailing_blank_split
    (lstrip l0 :: match find_margin rest with
                  | Some m => map (slice_from m) rest
                  | None => rest
                  end)) as (back & Hback & Hb).
  destruct (pop_leading_blank_split (pop_trailing_blank
    (lstrip l0 :: match find_margin rest with
                  | Some m => map (slice_from m) rest
                  | None => rest
                  end))) as (front & Hfront & Hf).
  rewrite Hf in Hb. rewrite Hb, !map_app in Hsame.
  destruct (pop_leading_blank _) as [| l ls] eqn:Hlines.
  - (* every line was popped: the result is the empty text *)
    cbn in Hc. rewrite app_nil_r in Hsame, Hb. cbn [map app] in Hsame.
    assert (Hall : Forall (λ l, l = "") (front ++ back))
      by (by apply Forall_app).
    destruct (front ++ back) as [| x xs] eqn:Hfb; [done |].
    exists (cleandoc s), [], (map lstrip xs).
    apply Forall_cons_1 in Hall as [Hx Hxs]. subst x.
    split; [reflexivity |]. split; [done |].
    split; [by apply map_lstrip_empties |].
    rewrite Hc, <- Hsame, <- map_app, Hfb. reflexivity.
  - exists (cleandoc s), (map lstrip front), (map lstrip back).
    split; [reflexivity |].
    split; [by apply map_lstrip_empties |].
    split; [by apply map_lstrip_empties |].
    rewrite Hc, split_join_nl by done.
    by rewrite <- Hsame, <- app_assoc.
Qed.

(** ** The length of a de-indented text *)

Section length_facts.

(** A line counts for its characters and one line feed. *)
Local Abbreviation weight lines :=
  (list_sum (map (λ l : string, S (String.length l)) lines)).

Lemma length_join_nl (lines : list string) :
  String.length (join_nl lines) = weight lines - 1.
Proof.
  induction lines as [| l [| l' ls] IH]; [done | cbn; lia |].
  change (join_nl (l :: l' :: ls))
    with (l +:+ String newline (join_nl (l' :: ls))).
  rewrite length_append. cbn [String.length]. rewrite IH.
  cbn [map list_sum fold_right]. lia.
Qed.

Lemma weight_app (xs ys : list string) :
  weight (xs ++ ys) = weight xs + weight ys.
Proof. by rewrite map_app, list_sum_app. Qed.

Lemma weight_pop_leading_blank (lines : list string) :
  weight (pop_leading_blank lines) ≤ weight lines.
Proof.
  destruct (pop_leading_blank_split lines) as (empties & _ & Hsplit).
  rewrite Hsplit at 2. rewrite weight_app. lia.
Qed.

Lemma weight_pop_trailing_blank (lines : list string) :
  weight (pop_trailing_blank lines) ≤ weight lines.
Proof.
  destruct (pop_trailing_blank_split lines) as (empties & _ & Hsplit).
  rewrite Hsplit at 2. rewrite weight_app. lia.
Qed.

Lemma slice_from_length (n : nat) (s : string) :
  String.length (slice_from n s) ≤ String.length s.
Proof.
  revert s. induction n as [| n IH]; intros [| c s]; cbn; try lia.
  specialize (IH s). lia.
Qed.

Lemma weight_map_slice_from (n : nat) (lines : list string) :
  weight (map (slice_from n) lines) ≤ weight lines.
Proof.
  unfold list_sum.
  induction lines as [| l ls IH]; cbn [map fold_right]; [lia |].
  pose proof (slice_from_length n l). lia.
Qed.

(** [cleandoc] gives a text no longer than the text with its tabs
    expanded. *)
Lemma cleandoc_length (s : string) :
  String.length (cleandoc s) ≤ String.length (expandtabs s).
Proof.
  destruct (cleandoc_lines s) as (l0 & rest & Hsplit & ->).
  pose proof (λ m, weight_map_slice_from m rest) as Hslice.
  rewrite <- (join_split_nl (expandtabs s)), Hsplit, !length_join_nl.
  apply Nat.sub_le_mono_r.
  etrans; [apply weight_pop_leading_blank |].
  etrans; [apply weight_pop_trailing_blank |].
  pose proof (lstrip_length l0).
  unfold list_sum in *. cbn [map fold_right].
  destruct (find_margin rest) as [k |]; [| lia].
  specialize (Hslice k). lia.
Qed.

End length_facts.

(** X11. On a text without tabs, what [postprocess] returns is never longer
    than the text. *)
Theorem postprocess_never_longer (self : Markdown.t) (s : string) :
  tab_free s = true →
  ∃ r, Markdown.postprocess self (PyStr s) = Ok (PyStr r)
       ∧ String.length r ≤ String.length s.
Proof.
  intros Hs. exists (cleandoc s). split; [reflexivity |].
  pose proof (cleandoc_length s) as Hle.
  unfold expandtabs in Hle. by rewrite expandtabs_from_tab_free in Hle.
Qed.

Lemma postprocess_never_longer_witness :
  ∃ r, Markdown.postprocess
         (Markdown.__init__ None None None None None None ∅)
         (PyStr (join_nl [""; "  # Title"; "    text"; ""]))
       = Ok (PyStr r)
       ∧ String.length r
         ≤ String.length (join_nl [""; "  # Title"; "    text"; ""]).
Proof.
  apply (postprocess_never_longer _
           (join_nl [""; "  # Title"; "    text"; ""])).
  reflexivity.
Defined.
